(** * magiskinit: the pre-init stage of Magisk

    A shallow embedding of [native/jni/core/magiskinit.c] and the
    properties of its command-line parser, block-device resolver, binary
    patchers, SELinux policy resolution, payload extraction and boot
    sequence.

    Conventions.
    - A C string is the [list ascii] of its characters before the
      terminating NUL; a fixed-size [char] array that the code writes
      piecewise is the list of all its cells.
    - [int], [long], [dev_t] values are [Z].
    - Behaviour the C standard leaves undefined (a write outside an
      array, a read of an indeterminate cell, signed overflow, the use
      of a failed mapping) is a distinguished outcome: [None] in the
      pure functions, [Undefined] in the stateful ones. *)

From Stdlib Require Import ZArith Ascii String Lia.
From stdpp Require Import gmap strings list.

Open Scope Z_scope.

(** ** Characters and C strings *)

Abbreviation cstring := (list ascii).

(** A string literal of the source, as its characters. *)
Definition cs (s : string) : cstring := list_ascii_of_string s.

Definition NUL : ascii := "000"%char.

Definition uchar (c : ascii) : Z := Z.of_N (N_of_ascii c).

(** [strlen]. *)
Definition strlen (s : cstring) : Z := Z.of_nat (length s).

(** The string held by a character array: the cells before the first NUL. *)
Fixpoint c_str (buf : list ascii) : cstring :=
  match buf with
  | [] => []
  | c :: rest => if decide (c = NUL) then [] else c :: c_str rest
  end.

(** [strcmp]: the difference of the first pair of differing characters,
    compared as [unsigned char]; the end of a string counts as the
    terminator 0, and nothing after a terminator is read. *)
Fixpoint strcmp (s1 s2 : cstring) : Z :=
  match s1, s2 with
  | [], [] => 0
  | [], c2 :: _ => 0 - uchar c2
  | c1 :: _, [] => uchar c1
  | c1 :: r1, c2 :: r2 =>
      if decide (c1 = c2)
      then (if decide (c1 = NUL) then 0 else strcmp r1 r2)
      else uchar c1 - uchar c2
  end.

(** [strncmp]: [strcmp] on at most [n] characters of each string. *)
Definition strncmp (s1 s2 : cstring) (n : nat) : Z :=
  strcmp (take n s1) (take n s2).

(** [isspace] in the C locale. *)
Definition isspace (c : ascii) : bool := Ascii.is_space c.

(** The fields of [s] between delimiter characters (possibly empty). *)
Fixpoint split_on (delim : ascii -> bool) (s : cstring) : list cstring :=
  match s with
  | [] => [[]]
  | c :: rest =>
      if delim c then [] :: split_on delim rest
      else match split_on delim rest with
           | f :: fs => (c :: f) :: fs
           | [] => [[c]]
           end
  end.

Definition nonempty (s : cstring) : bool :=
  match s with [] => false | _ => true end.

(** The successive results of [strtok(buf, delim)], [strtok(NULL, delim)],
    ... until it returns [NULL]: the maximal delimiter-free runs. *)
Definition strtok_all (delim : cstring) (buf : cstring) : list cstring :=
  List.filter nonempty (split_on (fun c => bool_decide (c ∈ delim)) buf).

(** *** The [sscanf] conversions the program uses *)

Fixpoint skip_space (s : cstring) : cstring :=
  match s with
  | c :: rest => if isspace c then skip_space rest else s
  | [] => []
  end.

Fixpoint word (s : cstring) : cstring :=
  match s with
  | c :: rest => if isspace c then [] else c :: word rest
  | [] => []
  end.

(** Ordinary characters of a format: they must match the input exactly. *)
Fixpoint scan_literal (lit s : cstring) : option cstring :=
  match lit, s with
  | [], _ => Some s
  | l :: lit', c :: s' => if decide (l = c) then scan_literal lit' s' else None
  | _ :: _, [] => None
  end.

(** [%s]: skips white space, then takes the non-space characters. *)
Definition scan_s (s : cstring) : option cstring :=
  match word (skip_space s) with
  | [] => None
  | w => Some w
  end.

(** [%c]: the next character, white space included. *)
Definition scan_c (s : cstring) : option ascii := head s.




(** [sscanf(s, "<lit>%s", ..)], [sscanf(s, "<lit>%c", ..)] and
    [sscanf(s, "<lit>%ld", ..)]: the value assigned, if any. *)
Definition sscanf_s (s : cstring) (lit : string) : option cstring :=
  scan_literal (cs lit) s ≫= scan_s.
Definition sscanf_c (s : cstring) (lit : string) : option ascii :=
  scan_literal (cs lit) s ≫= scan_c.

(** *** Arrays *)

(** [memcpy(arr + off, src, length src)] into an array of [length arr]
    cells; outside the array the write is undefined. *)
Definition store (arr : list ascii) (off : Z) (src : list ascii)
  : option (list ascii) :=
  if (0 <=? off) && (off + Z.of_nat (length src) <=? Z.of_nat (length arr))
  then Some (take (Z.to_nat off) arr ++ src
               ++ drop (Z.to_nat off + length src) arr)
  else None.

(** Writing the string [s] and its terminator at the start of [arr]. *)
Definition store_str (arr : list ascii) (s : cstring) : option (list ascii) :=
  store arr 0 (s ++ [NUL]).

(** ** The kernel command line: [struct cmdline] and [parse_cmdline] *)

Record cmdline := mk_cmdline {
  skip_initramfs : Z;        (* char skip_initramfs *)
  slot : list ascii          (* char slot[3] *)
}.

(** The struct after [memset(cmd, 0, sizeof(&cmd))]: the size is the
    one of a pointer, which covers the four bytes of the struct. *)
Definition cmdline_zero : cmdline :=
  {| skip_initramfs := 0; slot := [NUL; NUL; NUL] |}.

(** The suffix the rest of the program reads with ["%s"]. *)
Definition slot_suffix (cmd : cmdline) : cstring := c_str (slot cmd).

(** The body of the token loop of [parse_cmdline]. *)
Definition cmdline_token (cmd : cmdline) (tok : cstring) : option cmdline :=
  if decide (strncmp tok (cs "androidboot.slot_suffix") 23 = 0) then
    match sscanf_s tok "androidboot.slot_suffix=" with
    | Some v =>
        s ← store_str (slot cmd) v;
        Some {| skip_initramfs := skip_initramfs cmd; slot := s |}
    | None => Some cmd
    end
  else if decide (strncmp tok (cs "androidboot.slot") 16 = 0) then
    s0 ← store (slot cmd) 0 ["_"%char];
    match sscanf_c tok "androidboot.slot=" with
    | Some c =>
        s1 ← store s0 1 [c];
        Some {| skip_initramfs := skip_initramfs cmd; slot := s1 |}
    | None => Some {| skip_initramfs := skip_initramfs cmd; slot := s0 |}
    end
  else if decide (strcmp tok (cs "skip_initramfs") = 0) then
    Some {| skip_initramfs := 1; slot := slot cmd |}
  else Some cmd.

Fixpoint cmdline_tokens (cmd : cmdline) (toks : list cstring)
  : option cmdline :=
  match toks with
  | [] => Some cmd
  | tok :: rest => cmd' ← cmdline_token cmd tok; cmdline_tokens cmd' rest
  end.

(** [parse_cmdline] on the bytes [read] returned from [/proc/cmdline]:
    [char cmdline[4096]] receives them and a terminator after them, which
    lies outside the array when the read filled it. *)
Definition parse_cmdline_text (data : list ascii) : option cmdline :=
  if decide (length data < 4096)%nat
  then cmdline_tokens cmdline_zero (strtok_all (cs " ") (c_str data))
  else None.

(** ** Block devices: [struct device] and [parse_device] *)

Record device := mk_device {
  major : Z;                 (* dev_t major *)
  minor : Z;                 (* dev_t minor *)
  devname : cstring;         (* char devname[32] *)
  partname : cstring;        (* char partname[32] *)
  path : cstring             (* char path[64] *)
}.





Definition newline : ascii := "010"%char.


(** ** Searching and patching a mapped image *)





(** [sizeof] of a string literal. *)
Definition sizeof_str (s : cstring) : Z := strlen s + 1.


(** [strend]: [strcmp] of the last [strlen s2] characters of [s1] with
    [s2]; when [s1] is the shorter one the pointer lies before it. *)
Definition strend (s1 s2 : cstring) : option Z :=
  if decide (length s2 ≤ length s1)%nat
  then Some (strcmp (drop (length s1 - length s2) s1) s2)
  else None.

(** ** Constants and tables of the headers

    [magisk.h], [daemon.h], [dump.h], [magiskrc.h], [utils.h] and
    [<sys/sysmacros.h>] are not part of the sources at hand; what
    [magiskinit.c] takes from them is a parameter of the development. *)
Class Headers := {
  SPLIT_PLAT_CIL : cstring;
  SPLIT_PRECOMPILE : cstring;
  SPLIT_NONPLAT_VER : cstring;
  SPLIT_PLAT_MAPPING : cstring -> cstring;   (* a format with one [%s] *)
  NONPLAT_POLICY_DIR : cstring;
  PLAT_POLICY_DIR : cstring;
  SOCKET_NAME : cstring;
  init_applet : list cstring;
  magisk_dump : list ascii;
  magiskrc : list ascii;
  makedev : Z -> Z -> Z
}.

(** ** The file system

    A flat table from absolute pathnames to inode numbers (several
    names may share one inode: hard links) and a table of inodes.  The
    existence of the intermediate directories of a pathname is not
    tracked.  [listing] gives, for a directory the program enumerates,
    the names [readdir] yields, in the order it yields them; those
    directories live on sysfs and on the read-only system and vendor
    partitions, where the program creates nothing. *)

Inductive inode :=
| Reg (mode : Z) (data : list ascii)
| Dir (mode : Z)
| Blk (mode : Z) (rdev : Z)
| Chr (mode : Z) (rdev : Z).

Record filesys := mk_filesys {
  names : gmap cstring nat;
  inodes : gmap nat inode;
  listing : gmap cstring (list cstring)
}.


Definition lookup_inode (f : filesys) (p : cstring) : option inode :=
  names f !! p ≫= λ i, inodes f !! i.

Definition is_dir (f : filesys) (p : cstring) : bool :=
  match lookup_inode f p with Some (Dir _) => true | _ => false end.

Definition set_names (n : gmap cstring nat) (f : filesys) : filesys :=
  {| names := n; inodes := inodes f; listing := listing f |}.

(** A number no inode of the table has. *)
Definition new_inode (f : filesys) : nat := fresh (dom (inodes f)).

(** A new inode under the name [p]. *)
Definition alloc (f : filesys) (p : cstring) (nd : inode) : filesys :=
  let i := new_inode f in
  {| names := <[p := i]> (names f);
     inodes := <[i := nd]> (inodes f);
     listing := listing f |}.

(** [access(p, F_OK)] and [access(p, R_OK)]: the program is init, with
    user id 0 and every capability, so a file that exists is readable. *)
Definition fs_access (f : filesys) (p : cstring) : Z :=
  match names f !! p with Some _ => 0 | None => -1 end.

Definition fs_unlink (f : filesys) (p : cstring) : option filesys :=
  match names f !! p with
  | Some _ => if is_dir f p then None
              else Some (set_names (delete p (names f)) f)
  | None => None
  end.

Definition fs_link (f : filesys) (old new : cstring) : option filesys :=
  match names f !! old, names f !! new with
  | Some i, None => if is_dir f old then None
                    else Some (set_names (<[new := i]> (names f)) f)
  | _, _ => None
  end.



Definition has_prefix (pre s : cstring) : bool :=
  bool_decide (take (length pre) s = pre).



(** [creat]: the inode the descriptor refers to, or failure. *)
Definition fs_creat (f : filesys) (p : cstring) (mode umask : Z)
  : option (nat * filesys) :=
  match names f !! p with
  | Some i =>
      match inodes f !! i with
      | Some (Reg m _) =>
          Some (i, {| names := names f; inodes := <[i := Reg m []]> (inodes f);
                      listing := listing f |})
      | Some (Dir _) | None => None
      | Some _ => Some (i, f)
      end
  | None =>
      Some (new_inode f, alloc f p (Reg (Z.land mode (Z.lnot umask)) []))
  end.

(** [write] at the end of the file an open descriptor refers to. *)
Definition fs_write (f : filesys) (i : nat) (bytes : list ascii) : filesys :=
  match inodes f !! i with
  | Some (Reg m d) =>
      {| names := names f; inodes := <[i := Reg m (d ++ bytes)]> (inodes f);
         listing := listing f |}
  | _ => f
  end.

(** The bytes of a regular file. *)
Definition fs_data (f : filesys) (p : cstring) : option (list ascii) :=
  match lookup_inode f p with
  | Some (Reg _ d) => Some d
  | _ => None
  end.


(** The pathname of entry [name] of the directory opened as [dir]. *)
Definition dir_entry (dir name : cstring) : cstring :=
  match last dir with
  | Some c => if decide (c = "/"%char) then dir ++ name
              else dir ++ cs "/" ++ name
  | None => name
  end.

(** ** Collaborators and the state of the process *)

Inductive cil_call :=
| cil_db_init
| cil_set_mls (v : Z)
| cil_set_multiple_decls (v : Z)
| cil_set_disable_neverallow (v : Z)
| cil_set_target_platform_selinux
| cil_set_policy_version_xperms_ioctl
| cil_set_attrs_expand_generated (v : Z)
| cil_add_file (name : cstring) (data : list ascii)
| cil_compile
| cil_build_policydb
| cil_db_destroy.

(** The calls that leave [magiskinit.c]: to [utils], [cpio],
    [magiskpolicy] and [libsepol], and the system calls whose effect is
    the environment's ([mount], [umount], [execv]).  A call of a
    collaborator that works under the global [excl_list] carries the
    list as it is at the call. *)
Inductive call :=
| c_xmount (source target fstype : cstring) (flags : Z)
| c_umount (target : cstring)
| c_frm_rf (dir : cstring) (excl : list cstring)
| c_clone_dir (src dst : cstring) (excl : list cstring)
| c_mv_dir (src dst : cstring)
| c_parse_cpio (file : cstring)
| c_cpio_extract_all (excl : list cstring)
| c_cpio_vec_destroy
| c_patch_init_rc
| c_load_policydb (file : cstring)
| c_sepol_magisk_rules
| c_dump_policydb (file : cstring)
| c_cil (op : cil_call)
| c_gen_rand_str (len : Z)
| c_applet (i : nat) (argv : list cstring)
| c_execv (file : cstring) (argv : list cstring).

Definition lzma_ret := Z.
Definition LZMA_OK : lzma_ret := 0.
Definition LZMA_STREAM_END : lzma_ret := 1.
Definition LZMA_BUF_ERROR : lzma_ret := 10.

(** What the environment answers.  [call_fx] is the effect of a call on
    the file system; the other fields are the values calls hand back. *)
Record Env := mk_Env {
  call_fx : call -> filesys -> filesys;
  (* [patch_init_rc]: the rewritten init script *)
  init_rc_patch : list ascii -> list ascii;
  (* [gen_rand_str]: the bytes it writes, given the calls made so far *)
  rand_str : list call -> Z -> list ascii;
  (* [lzma_auto_decoder]: its return value *)
  lzma_init : lzma_ret;
  (* [lzma_code]: for each successive call on this input, the bytes left
     in the output buffer and the return value *)
  lzma_steps : list ascii -> list (list ascii * lzma_ret);
  (* the applets' [main] *)
  applet_ret : nat -> list cstring -> Z;
  (* what the uninitialised [struct device dev] of [main] holds *)
  uninit_device : device
}.

Inductive policy_ref :=
| pdb_unset
| pdb_file (file : cstring)
| pdb_cil.

Record World := mk_World {
  fs : filesys;
  umask_bits : Z;
  trace : list call;
  SOCKET_OFF : Z;                    (* static int SOCKET_OFF = -1 *)
  RAND_SOCKET_NAME : list ascii;     (* static char [sizeof(SOCKET_NAME)] *)
  excl_list : list cstring;          (* utils: char **excl_list *)
  policydb : policy_ref;             (* extern policydb_t *policydb *)
  env : Env
}.

Definition set_fs (f : filesys) (w : World) : World :=
  {| fs := f; umask_bits := umask_bits w; trace := trace w;
     SOCKET_OFF := SOCKET_OFF w; RAND_SOCKET_NAME := RAND_SOCKET_NAME w;
     excl_list := excl_list w; policydb := policydb w; env := env w |}.
Definition set_umask (m : Z) (w : World) : World :=
  {| fs := fs w; umask_bits := m; trace := trace w;
     SOCKET_OFF := SOCKET_OFF w; RAND_SOCKET_NAME := RAND_SOCKET_NAME w;
     excl_list := excl_list w; policydb := policydb w; env := env w |}.
Definition set_trace (t : list call) (w : World) : World :=
  {| fs := fs w; umask_bits := umask_bits w; trace := t;
     SOCKET_OFF := SOCKET_OFF w; RAND_SOCKET_NAME := RAND_SOCKET_NAME w;
     excl_list := excl_list w; policydb := policydb w; env := env w |}.
Definition set_policydb (p : policy_ref) (w : World) : World :=
  {| fs := fs w; umask_bits := umask_bits w; trace := trace w;
     SOCKET_OFF := SOCKET_OFF w; RAND_SOCKET_NAME := RAND_SOCKET_NAME w;
     excl_list := excl_list w; policydb := p; env := env w |}.

(** *** The monad of the stateful code *)

Inductive outcome (A : Type) :=
| Ok (a : A) (w : World)
| Undefined.
Arguments Ok {A} a w.
Arguments Undefined {A}.

Definition M (A : Type) : Type := World -> outcome A.

#[global] Instance M_ret : MRet M := λ A a w, Ok a w.
#[global] Instance M_bind : MBind M := λ A B f m w,
  match m w with
  | Ok a w' => f a w'
  | Undefined => Undefined
  end.

Definition undefined {A} : M A := λ _, Undefined.
Definition get_world : M World := λ w, Ok w w.
Definition modify (f : World -> World) : M unit := λ w, Ok tt (f w).

(** A call to a collaborator: recorded, and the file system changed as
    the environment says. *)
Definition extern (c : call) : M unit :=
  modify (λ w, set_trace (trace w ++ [c]) (set_fs (call_fx (env w) c (fs w)) w)).

(** A system call on the file system; [-1] when it fails. *)
Definition sys (op : filesys -> option filesys) : M Z := λ w,
  match op (fs w) with
  | Some f => Ok 0 (set_fs f w)
  | None => Ok (-1) w
  end.

Definition access (p : cstring) : M Z := λ w, Ok (fs_access (fs w) p) w.
Definition unlink (p : cstring) : M Z := sys (λ f, fs_unlink f p).
Definition link (old new : cstring) : M Z := sys (λ f, fs_link f old new).
Definition umask (m : Z) : M unit := modify (set_umask m).

(** [creat]: the inode behind the descriptor, [None] for descriptor -1. *)
Definition creat (p : cstring) (mode : Z) : M (option nat) := λ w,
  match fs_creat (fs w) p mode (umask_bits w) with
  | Some (i, f) => Ok (Some i) (set_fs f w)
  | None => Ok None w
  end.

Definition write (fd : option nat) (bytes : list ascii) : M unit :=
  match fd with
  | Some i => modify (λ w, set_fs (fs_write (fs w) i bytes) w)
  | None => mret tt
  end.

(** [open(p, O_RDONLY)], one [read] of at most [n] bytes, [close]: the
    bytes read, [None] when [read] returned -1. *)
Definition read_file (p : cstring) (n : nat) : M (option (list ascii)) := λ w,
  Ok (take n <$> fs_data (fs w) p) w.

(** The names of a [readdir] loop that pass
    [strcmp(d_name, ".") == 0 || strcmp(d_name, "..") == 0 -> continue]. *)
Definition real_entries (raw : list cstring) : list cstring :=
  List.filter
    (λ n, negb (bool_decide (strcmp n (cs ".") = 0)
                || bool_decide (strcmp n (cs "..") = 0))) raw.

(** [opendir] and the [readdir] loop, without [.] and [..]; [None] when
    [opendir] returned [NULL]. *)
Definition dir_entries (p : cstring) : M (option (list cstring)) := λ w,
  Ok (real_entries <$> listing (fs w) !! p) w.

(** [mmap_rw], [mmap_ro] and [full_read] of [utils].
    Modelled from the spec: the three helpers are not part of the sources
    at hand; the spec has them map, or read fully into memory, the image
    of a file.  Using the result for a pathname that is no regular file
    is left undefined. *)
Definition mmap (p : cstring) : M (nat * list ascii) := λ w,
  match names (fs w) !! p with
  | Some i =>
      match inodes (fs w) !! i with
      | Some (Reg _ d) => Ok (i, d) w
      | _ => Undefined
      end
  | None => Undefined
  end.



Definition lift {A} (o : option A) : M A :=
  match o with
  | Some a => mret a
  | None => undefined
  end.

Definition o0755 : Z := 493.
Definition BUFSIZE : Z := Z.shiftl 1 20.

(** ** The functions of [magiskinit.c] *)

Section Magiskinit.
Context `{Headers}.


(** [snprintf(buf, n, ..)] keeps at most [n - 1] characters. *)
Definition snprintf (n : nat) (s : cstring) : cstring := take (n - 1) s.






(** [mmap_ro] of a file followed by [cil_add_file] and [munmap]. *)
Definition cil_add (p : cstring) : M unit :=
  '(_, d) ← mmap p;
  extern (c_cil (cil_add_file p d)).

(** [buf[read(fd, buf, n) - 1] = '\0'] after [open]: the string the
    buffer then holds. *)
Definition read_line (p : cstring) (n : nat) : M cstring :=
  r ← read_file p n;
  match r with
  | Some d =>
      if decide (d = []) then undefined      (* buf[-1] = '\0' *)
      else mret (c_str (removelast d))
  | None => undefined                        (* buf[-2] = '\0' *)
  end.

Fixpoint cil_add_dir (entries : list cstring) : M unit :=
  match entries with
  | [] => mret tt
  | e :: rest =>
      r ← lift (strend e (cs ".cil"));
      (if decide (r = 0)
       then cil_add (snprintf 128 (NONPLAT_POLICY_DIR ++ e))
       else mret tt);;
      cil_add_dir rest
  end.

Definition compile_cil : M Z :=
  extern (c_cil cil_db_init);;
  extern (c_cil (cil_set_mls 1));;
  extern (c_cil (cil_set_multiple_decls 1));;
  extern (c_cil (cil_set_disable_neverallow 1));;
  extern (c_cil cil_set_target_platform_selinux);;
  extern (c_cil cil_set_policy_version_xperms_ioctl);;
  extern (c_cil (cil_set_attrs_expand_generated 0));;
  (* plat *)
  cil_add SPLIT_PLAT_CIL;;
  (* mapping *)
  plat ← read_line SPLIT_NONPLAT_VER 10;
  cil_add (snprintf 128 (SPLIT_PLAT_MAPPING plat));;
  (* nonplat *)
  d ← dir_entries NONPLAT_POLICY_DIR;
  entries ← lift d;
  cil_add_dir entries;;
  extern (c_cil cil_compile);;
  extern (c_cil cil_build_policydb);;
  extern (c_cil cil_db_destroy);;
  modify (set_policydb pdb_cil);;
  mret 0.

(** A [readdir] loop of [verify_precompiled]: the string read from the
    first entry ending in [.sha256]; [None] when there is no such entry
    and the buffer is left as it was. *)
Fixpoint read_sha (dir : cstring) (entries : list cstring)
  : M (option cstring) :=
  match entries with
  | [] => mret None
  | e :: rest =>
      r ← lift (strend e (cs ".sha256"));
      if decide (r = 0)
      then s ← read_line (dir_entry dir e) 70; mret (Some s)
      else read_sha dir rest
  end.

Definition verify_precompiled : M bool :=
  d ← dir_entries NONPLAT_POLICY_DIR;
  entries ← lift d;
  ven ← read_sha NONPLAT_POLICY_DIR entries;
  d ← dir_entries PLAT_POLICY_DIR;
  entries ← lift d;
  sys ← read_sha PLAT_POLICY_DIR entries;
  (* sys_sha[0] = 0: without a file the platform string is empty *)
  let sys_sha := default [] sys in
  match ven with
  | Some ven_sha => mret (bool_decide (strcmp sys_sha ven_sha = 0))
  | None =>
      (* ven_sha[0] = 1 and the cells after it were never written *)
      match sys_sha with
      | c :: _ => if decide (c = "001"%char) then undefined else mret false
      | [] => mret false
      end
  end.

(** [load_policydb] of [magiskpolicy]: it leaves the policy of the
    file in the global [policydb]. *)
Definition load_policydb (p : cstring) : M unit :=
  extern (c_load_policydb p);;
  modify (set_policydb (pdb_file p)).

(** [patch_sepolicy] after a policy was obtained. *)
Definition commit_sepolicy : M Z :=
  extern c_sepol_magisk_rules;;
  extern (c_dump_policydb (cs "/sepolicy"));;
  (* Remove the stupid debug sepolicy and use our own *)
  a ← access (cs "/sepolicy_debug");
  (if decide (a = 0)
   then unlink (cs "/sepolicy_debug");;
        link (cs "/sepolicy") (cs "/sepolicy_debug");;
        mret tt
   else mret tt);;
  mret 0.

Definition patch_sepolicy : M Z :=
  a ← access (cs "/sepolicy");
  if decide (a = 0) then load_policydb (cs "/sepolicy");; commit_sepolicy
  else
    a ← access SPLIT_PRECOMPILE;
    v ← (if decide (a = 0) then verify_precompiled else mret false);
    if v : bool then load_policydb SPLIT_PRECOMPILE;; commit_sepolicy
    else
      a ← access SPLIT_PLAT_CIL;
      if decide (a = 0) then compile_cil;; commit_sepolicy
      else mret 1.

(** The [do .. while] loop of [unxz] over the successive results of
    [lzma_code]; a decoder asked again after its last result makes no
    progress. *)
Fixpoint unxz_loop (steps : list (list ascii * lzma_ret)) (fd : option nat)
  : M lzma_ret :=
  match steps with
  | [] => write fd [];; mret LZMA_BUF_ERROR
  | (out, r) :: rest =>
      write fd out;;
      (* strm.avail_out == 0 && ret == LZMA_OK *)
      if decide (Z.of_nat (length out) = BUFSIZE ∧ r = LZMA_OK)
      then unxz_loop rest fd
      else mret r
  end.

Definition unxz (buf : list ascii) (fd : option nat) : M Z :=
  w ← get_world;
  if decide (lzma_init (env w) ≠ LZMA_OK) then mret 1
  else
    r ← unxz_loop (lzma_steps (env w) buf) fd;
    if decide (r ≠ LZMA_OK ∧ r ≠ LZMA_STREAM_END) then mret 1 else mret 0.

Definition dump_magisk (p : cstring) (mode : Z) : M Z :=
  unlink p;;
  fd ← creat p mode;
  ret ← unxz magisk_dump fd;
  mret ret.

















End Magiskinit.

(** ** What the properties speak about *)


Definition nul_free (s : cstring) : Prop := NUL ∉ s.

(** A well-formed slot token and the suffix it stands for:
    [androidboot.slot=<letter>..] stands for [_<letter>], and
    [androidboot.slot_suffix=<suffix>], with a suffix of one or two
    characters that are not white space, for the suffix itself. *)
Inductive slot_token : cstring -> cstring -> Prop :=
| slot_token_letter (c : ascii) (rest : cstring) :
    c ≠ NUL ->
    slot_token (cs "androidboot.slot=" ++ c :: rest) ["_"%char; c]
| slot_token_suffix (v : cstring) :
    v ≠ [] -> (length v ≤ 2)%nat -> nul_free v ->
    Forall (λ c, isspace c = false) v ->
    slot_token (cs "androidboot.slot_suffix=" ++ v) v.


(** The [slot] array as every run of the parser keeps it: three cells,
    the last one the terminator. *)
Definition slot_ok (s : list ascii) : Prop :=
  exists a b, s = [a; b; NUL].





(** Values for the constants of the headers, to run the program on
    concrete inputs. *)
Definition sample_headers : Headers := {|
  SPLIT_PLAT_CIL := cs "/system/etc/selinux/plat_sepolicy.cil";
  SPLIT_PRECOMPILE := cs "/vendor/etc/selinux/precompiled_sepolicy";
  SPLIT_NONPLAT_VER := cs "/vendor/etc/selinux/plat_sepolicy_vers.txt";
  SPLIT_PLAT_MAPPING := λ v, cs "/system/etc/selinux/mapping/" ++ v ++ cs ".cil";
  NONPLAT_POLICY_DIR := cs "/vendor/etc/selinux/";
  PLAT_POLICY_DIR := cs "/system/etc/selinux/";
  SOCKET_NAME := cs "d30138f2310a9fb9c54a3e0c21f58591";
  init_applet := [cs "magiskpolicy"; cs "supolicy"];
  magisk_dump := cs "XZ:magisk";
  magiskrc := cs "service magisk_daemon /sbin/magisk --startup";
  makedev := λ ma mi,
    Z.lor (Z.lor (Z.shiftl (Z.land ma 4095) 8) (Z.land mi 255))
          (Z.shiftl (Z.land mi 1048320) 12)
|}.

(** What the decoder has produced, and the value of its last call, when
    the loop of [unxz] stops. *)
Fixpoint lzma_run (steps : list (list ascii * lzma_ret))
  : list ascii * lzma_ret :=
  match steps with
  | [] => ([], LZMA_BUF_ERROR)
  | (out, r) :: rest =>
      if decide (Z.of_nat (length out) = BUFSIZE /\ r = LZMA_OK)
      then (out ++ fst (lzma_run rest), snd (lzma_run rest))
      else (out, r)
  end.

(** Decompression of [input] fails in the environment [e]: the decoder
    cannot be set up, or its last call returns neither [LZMA_OK] nor
    [LZMA_STREAM_END]. *)
Definition unxz_fails (e : Env) (input : list ascii) : Prop :=
  lzma_init e ≠ LZMA_OK
  \/ (snd (lzma_run (lzma_steps e input)) ≠ LZMA_OK
      /\ snd (lzma_run (lzma_steps e input)) ≠ LZMA_STREAM_END).

(** The bytes [unxz] writes for [input]. *)
Definition unxz_output (e : Env) (input : list ascii) : list ascii :=
  if decide (lzma_init e ≠ LZMA_OK) then []
  else fst (lzma_run (lzma_steps e input)).

(** An environment whose collaborators leave the file system alone. *)
Definition sample_env : Env := {|
  call_fx := λ _ f, f;
  init_rc_patch := λ rc, rc ++ cs "import /init.magisk.rc";
  rand_str := λ _ len, repeat "r"%char (Z.to_nat len - 1) ++ [NUL];
  lzma_init := LZMA_OK;
  lzma_steps := λ _, [(cs "ELF:magisk", LZMA_STREAM_END)];
  applet_ret := λ _ _, 0;
  uninit_device :=
    {| major := 0; minor := 0; devname := []; partname := []; path := [] |}
|}.

Definition empty_fs : filesys :=
  {| names := ∅; inodes := ∅; listing := ∅ |}.

(** The file system with the given files, each under an inode of its own. *)
Fixpoint add_files (l : list (cstring * inode)) (f : filesys) : filesys :=
  match l with
  | [] => f
  | (p, nd) :: rest => add_files rest (alloc f p nd)
  end.

Definition add_listing (dir : cstring) (entries : list cstring) (f : filesys)
  : filesys :=
  {| names := names f; inodes := inodes f;
     listing := <[dir := entries]> (listing f) |}.

(** The state of the process when [main] is entered. *)
Definition initial_world `{Headers} (f : filesys) (e : Env) : World :=
  {| fs := f; umask_bits := 18; trace := []; SOCKET_OFF := -1;
     RAND_SOCKET_NAME := repeat NUL (Z.to_nat (sizeof_str SOCKET_NAME));
     excl_list := []; policydb := pdb_unset; env := e |}.

Section SampleInputs.
#[local] Existing Instance sample_headers.




(** The text of newline-terminated lines. *)
Definition unlines (l : list string) : list ascii :=
  concat (map (λ s, cs s ++ [newline]) l).



(** System and vendor partitions with a split policy and the two
    signature files, whose digests are the arguments. *)
Definition split_policy_fs (plat_sha ven_sha : string) : filesys :=
  add_listing (cs "/vendor/etc/selinux/")
    [cs "."; cs ".."; cs "nonplat_sepolicy.cil"; cs "plat_sepolicy_vers.txt";
     cs "precompiled_sepolicy";
     cs "precompiled_sepolicy.plat_and_mapping.sha256"]
    (add_listing (cs "/system/etc/selinux/")
       [cs "."; cs ".."; cs "mapping"; cs "plat_sepolicy.cil";
        cs "plat_and_mapping_sepolicy.cil.sha256"]
       (add_files
          [(cs "/vendor/etc/selinux/nonplat_sepolicy.cil",
            Reg 420 (cs "(type vendor_t)"));
           (cs "/vendor/etc/selinux/plat_sepolicy_vers.txt",
            Reg 420 (unlines ["27.0"%string]));
           (cs "/vendor/etc/selinux/precompiled_sepolicy",
            Reg 420 (cs "POLICY"));
           (cs "/vendor/etc/selinux/precompiled_sepolicy.plat_and_mapping.sha256",
            Reg 420 (unlines [ven_sha]));
           (cs "/system/etc/selinux/plat_sepolicy.cil",
            Reg 420 (cs "(type system_t)"));
           (cs "/system/etc/selinux/mapping/27.0.cil",
            Reg 420 (cs "(typeattribute t_27_0)"));
           (cs "/system/etc/selinux/plat_and_mapping_sepolicy.cil.sha256",
            Reg 420 (unlines [plat_sha]))]
          empty_fs)).

Definition world_same_digest : World :=
  initial_world (split_policy_fs "0a1b2c" "0a1b2c") sample_env.
Definition world_other_digest : World :=
  initial_world (split_policy_fs "0a1b2c" "0a1b2d") sample_env.
(** An environment whose decoder stops with [LZMA_DATA_ERROR] after
    seven bytes. *)
Definition failing_env : Env := {|
  call_fx := call_fx sample_env;
  init_rc_patch := init_rc_patch sample_env;
  rand_str := rand_str sample_env;
  lzma_init := LZMA_OK;
  lzma_steps := λ _, [(cs "ELF:mag", 9)];
  applet_ret := applet_ret sample_env;
  uninit_device := uninit_device sample_env
|}.

(** A root with an earlier [/sbin/magisk]. *)
Definition world_with_old_magisk : World :=
  set_umask 0
    (initial_world
       (add_files [(cs "/sbin/magisk", Reg o0755 (cs "ELF:old magisk"))] empty_fs)
       failing_env).



End SampleInputs.







(** [access(p, R_OK) == 0] in the state [w]. *)
Definition readable (w : World) (p : cstring) : Prop :=
  fs_access (fs w) p = 0.

(** The directory [dir] holds a signature: the first name, in the order
    of [readdir], that ends in [.sha256] is the one of a file whose
    bytes are the line [text] and one final byte, its terminator. *)
Definition signature_file (f : filesys) (dir : cstring) (text : cstring)
  : Prop :=
  exists raw before e after c,
    listing f !! dir = Some raw
    /\ real_entries raw = before ++ e :: after
    /\ Forall (λ n, (7 ≤ length n)%nat /\ drop (length n - 7) n ≠ cs ".sha256")
         before
    /\ (7 ≤ length e)%nat /\ drop (length e - 7) e = cs ".sha256"
    /\ fs_data f (dir_entry dir e) = Some (text ++ [c])
    /\ nul_free text /\ (length text < 70)%nat.



(** * Properties *)

(** ** C strings *)

Lemma uchar_inj c1 c2 : uchar c1 = uchar c2 -> c1 = c2.
Proof.
  unfold uchar. intros E. apply N2Z.inj in E.
  rewrite <- (ascii_N_embedding c1), <- (ascii_N_embedding c2). by rewrite E.
Qed.

Lemma uchar_NUL c : uchar c = 0 <-> c = NUL.
Proof.
  split; [intros E; apply uchar_inj; rewrite E; reflexivity | by intros ->].
Qed.

Lemma strcmp_0_iff s1 s2 : strcmp s1 s2 = 0 <-> c_str s1 = c_str s2.
Proof.
  revert s2. induction s1 as [|c1 r1 IH]; intros [|c2 r2]; simpl.
  - done.
  - destruct (decide (c2 = NUL)) as [->|n]; [done|].
    split; [|done]. intros E. exfalso. apply n, uchar_NUL. lia.
  - destruct (decide (c1 = NUL)) as [->|n]; [done|].
    split; [|done]. intros E. exfalso. by apply n, uchar_NUL.
  - destruct (decide (c1 = c2)) as [->|n].
    + destruct (decide (c2 = NUL)); [done|].
      rewrite IH. split; [by intros ->|by intros [= ->]].
    + split.
      * intros E. exfalso. apply n, uchar_inj. lia.
      * destruct (decide (c1 = NUL)), (decide (c2 = NUL)); congruence.
Qed.

Lemma c_str_nul_free s : nul_free s -> c_str s = s.
Proof.
  unfold nul_free. induction s as [|c r IH]; simpl; [done|]. intros Hn.
  destruct (decide (c = NUL)) as [E|]; [exfalso; apply Hn; rewrite E; left|].
  f_equal. apply IH. intros ?. apply Hn. by right.
Qed.


Lemma c_str_length s : (length (c_str s) ≤ length s)%nat.
Proof.
  induction s as [|c r IH]; simpl; [done|]. destruct (decide _); simpl; lia.
Qed.

Lemma c_str_full s : length (c_str s) = length s -> c_str s = s.
Proof.
  induction s as [|c r IH]; simpl; [done|].
  destruct (decide _); simpl; [done|]. intros [= E]. by rewrite IH.
Qed.

Lemma strcmp_eq s1 s2 :
  nul_free s1 -> nul_free s2 -> strcmp s1 s2 = 0 <-> s1 = s2.
Proof. intros H1 H2. by rewrite strcmp_0_iff, !c_str_nul_free. Qed.

(** [strncmp] against a literal of exactly [n] characters is a test for
    a prefix. *)
Lemma strncmp_prefix tok lit :
  nul_free lit ->
  strncmp tok lit (length lit) = 0 <-> has_prefix lit tok = true.
Proof.
  intros Hl. unfold strncmp, has_prefix.
  rewrite strcmp_0_iff, firstn_all, (c_str_nul_free lit) by done.
  rewrite bool_decide_eq_true. split; [|by intros ->; apply c_str_nul_free].
  pose proof (length_take tok (length lit)) as Hx. revert Hx.
  generalize dependent (take (length lit) tok). intros x Hx E.
  rewrite <- E. symmetry. apply c_str_full.
  pose proof (c_str_length x) as L1. rewrite E in *. lia.
Qed.

Ltac literal_nul_free :=
  match goal with
  | |- nul_free ?l => apply (bool_decide_unpack (NUL ∉ l)); vm_compute; exact I
  end.

Lemma has_prefix_app a b tok :
  has_prefix (a ++ b) tok = true -> has_prefix a tok = true.
Proof.
  unfold has_prefix. rewrite !bool_decide_eq_true. intros E.
  assert (E' : take (length a) (take (length (a ++ b)) tok) = a)
    by (rewrite E; apply take_app_length).
  rewrite take_take, length_app in E'.
  by replace (length a `min` (length a + length b))%nat with (length a) in E' by lia.
Qed.

Lemma has_prefix_spec pre tok :
  has_prefix pre tok = true <-> exists rest, tok = pre ++ rest.
Proof.
  unfold has_prefix. rewrite bool_decide_eq_true. split.
  - intros E. exists (drop (length pre) tok). by rewrite <- E at 1; rewrite take_drop.
  - intros [rest ->]. by rewrite take_app_length.
Qed.

(** ** The fields of a string *)



(** ** The command line *)

Lemma slot_suffix_test tok :
  strncmp tok (cs "androidboot.slot_suffix") 23 = 0
  <-> has_prefix (cs "androidboot.slot_suffix") tok = true.
Proof. apply (strncmp_prefix tok (cs "androidboot.slot_suffix")). literal_nul_free. Qed.

Lemma slot_test tok :
  strncmp tok (cs "androidboot.slot") 16 = 0
  <-> has_prefix (cs "androidboot.slot") tok = true.
Proof. apply (strncmp_prefix tok (cs "androidboot.slot")). literal_nul_free. Qed.

(** A token that does not begin with [androidboot.slot] leaves the slot
    as it is, whatever else it is. *)
Lemma cmdline_token_keeps_slot cmd tok :
  has_prefix (cs "androidboot.slot") tok = false ->
  exists cmd', cmdline_token cmd tok = Some cmd' /\ slot cmd' = slot cmd.
Proof.
  intros Hp. unfold cmdline_token.
  destruct (decide (strncmp tok (cs "androidboot.slot_suffix") 23 = 0)) as [E|_].
  { apply slot_suffix_test in E.
    apply (has_prefix_app (cs "androidboot.slot") (cs "_suffix")) in E. congruence. }
  destruct (decide (strncmp tok (cs "androidboot.slot") 16 = 0)) as [E|_].
  { apply slot_test in E. congruence. }
  destruct (decide _); eauto.
Qed.



Lemma store_str_slot_ok s v s' :
  slot_ok s -> store_str s v = Some s' -> slot_ok s'.
Proof.
  intros (a & b & ->). unfold store_str, store.
  destruct v as [|x [|y [|z v]]]; simpl.
  - intros [= <-]. by eexists _, _.
  - intros [= <-]. by eexists _, _.
  - intros [= <-]. by eexists _, _.
  - rewrite length_app. simpl.
    destruct (_ <=? _) eqn:E; [apply Z.leb_le in E; lia | done].
Qed.

Lemma cmdline_token_slot_ok cmd tok cmd' :
  slot_ok (slot cmd) -> cmdline_token cmd tok = Some cmd' -> slot_ok (slot cmd').
Proof.
  intros Hs. unfold cmdline_token.
  destruct (decide _).
  { destruct (sscanf_s _ _) as [v|]; [|by intros [= <-]].
    destruct (store_str (slot cmd) v) as [s|] eqn:E; simpl; [|done].
    intros [= <-]. simpl. eauto using store_str_slot_ok. }
  destruct (decide _).
  { destruct Hs as (a & b & ->).
    destruct (sscanf_c _ _) as [c|]; simpl; intros [= <-]; simpl; by eexists _, _. }
  destruct (decide _); intros [= <-]; done.
Qed.

Lemma cmdline_tokens_slot_ok toks cmd cmd' :
  slot_ok (slot cmd) -> cmdline_tokens cmd toks = Some cmd' -> slot_ok (slot cmd').
Proof.
  revert cmd. induction toks as [|tok toks IH]; simpl; intros cmd Hs.
  - by intros [= <-].
  - destruct (cmdline_token cmd tok) as [c|] eqn:E; simpl; [|done].
    apply IH. eauto using cmdline_token_slot_ok.
Qed.

Lemma cmdline_tokens_app l1 l2 cmd :
  cmdline_tokens cmd (l1 ++ l2) = cmdline_tokens cmd l1 ≫= λ c, cmdline_tokens c l2.
Proof.
  revert cmd. induction l1 as [|t l1 IH]; simpl; intros cmd; [done|].
  destruct (cmdline_token cmd t); simpl; [apply IH|done].
Qed.

Lemma cmdline_tokens_keep_slot toks cmd :
  Forall (λ u, has_prefix (cs "androidboot.slot") u = false) toks ->
  exists cmd', cmdline_tokens cmd toks = Some cmd' /\ slot cmd' = slot cmd.
Proof.
  intros Hf. revert cmd. induction Hf as [|t toks Ht _ IH]; intros cmd; simpl.
  - eauto.
  - destruct (cmdline_token_keeps_slot cmd t Ht) as (c & -> & Es). simpl.
    destruct (IH c) as (c' & -> & Es'). exists c'. split; [done|congruence].
Qed.

Lemma skip_space_word v :
  Forall (λ c, isspace c = false) v -> skip_space v = v /\ word v = v.
Proof.
  induction 1 as [|c v Hc _ [IH1 IH2]]; simpl; [done|].
  rewrite Hc. split; [done|by rewrite IH2].
Qed.

Lemma scan_literal_app lit rest : scan_literal lit (lit ++ rest) = Some rest.
Proof.
  induction lit as [|c lit IH]; simpl; [done|]. by rewrite decide_True.
Qed.

(** The slot token alone decides the suffix. *)
Lemma cmdline_token_slot_token cmd tok v :
  slot_ok (slot cmd) -> slot_token tok v ->
  exists cmd', cmdline_token cmd tok = Some cmd' /\ slot_suffix cmd' = v.
Proof.
  intros (a & b & Es) Ht. unfold cmdline_token, slot_suffix.
  destruct Ht as [c rest Hc | v Hv Hl Hn Hw].
  - rewrite decide_False by (vm_compute; discriminate).
    rewrite decide_True by (vm_compute; reflexivity).
    rewrite Es. unfold sscanf_c.
    rewrite (scan_literal_app (cs "androidboot.slot=")). simpl.
    eexists. split; [reflexivity|]. simpl.
    by rewrite decide_False.
  - rewrite decide_True.
    2:{ apply slot_suffix_test, has_prefix_spec. exists (cs "=" ++ v).
        by rewrite app_assoc. }
    unfold sscanf_s. rewrite (scan_literal_app (cs "androidboot.slot_suffix=")).
    simpl. unfold scan_s. destruct (skip_space_word v Hw) as [-> ->].
    destruct v as [|x [|y [|z v]]]; simpl in *; [done| | |lia]; rewrite Es;
      (eexists; split; [reflexivity|]); simpl.
    + rewrite decide_False; [done|].
      intros E. apply Hn. rewrite E. left.
    + rewrite !decide_False; [done| |].
      * intros E. apply Hn. rewrite E. right. left.
      * intros E. apply Hn. rewrite E. left.
Qed.



Lemma last_slot_token_decides before tok v after cmd1 :
  slot_token tok v ->
  Forall (λ u, has_prefix (cs "androidboot.slot") u = false) after ->
  cmdline_tokens cmdline_zero before = Some cmd1 ->
  exists cmd,
    cmdline_tokens cmdline_zero (before ++ tok :: after) = Some cmd
    /\ slot_suffix cmd = v.
Proof.
  intros Ht Ha Hb.
  assert (Hs : slot_ok (slot cmd1)).
  { eapply cmdline_tokens_slot_ok; [|exact Hb]. by eexists _, _. }
  destruct (cmdline_token_slot_token cmd1 tok v Hs Ht) as (c2 & E2 & V2).
  destruct (cmdline_tokens_keep_slot after c2 Ha) as (c3 & E3 & V3).
  exists c3. rewrite cmdline_tokens_app, Hb. simpl. rewrite E2. simpl.
  split; [done|]. unfold slot_suffix in *. by rewrite V3.
Qed.

(** C5.  Let the command line split into the tokens [before], [tok],
    [after], where [tok] is a well-formed slot token
    ([androidboot.slot=<letter>] or [androidboot.slot_suffix=<suffix>])
    and no token of [after] begins with [androidboot.slot].  Then the
    suffix [parse_cmdline] leaves is the one [tok] stands for, whatever
    [before] holds, a slot token of the other form included: of the two
    forms the one that occurs later wins, in either order. *)
Theorem last_slot_token_wins data before tok v after cmd1 :
  (length data < 4096)%nat ->
  strtok_all (cs " ") (c_str data) = before ++ tok :: after ->
  slot_token tok v ->
  Forall (λ u, has_prefix (cs "androidboot.slot") u = false) after ->
  cmdline_tokens cmdline_zero before = Some cmd1 ->
  exists cmd, parse_cmdline_text data = Some cmd /\ slot_suffix cmd = v.
Proof.
  intros Hl Et Ht Ha Hb. unfold parse_cmdline_text.
  rewrite decide_True by done. rewrite Et.
  by eapply last_slot_token_decides.
Qed.

Lemma last_slot_token_wins_witness :
  (exists cmd,
     parse_cmdline_text
       (cs "androidboot.slot=a androidboot.slot_suffix=_b skip_initramfs")
     = Some cmd
     /\ slot_suffix cmd = cs "_b")
  /\ (exists cmd,
        parse_cmdline_text
          (cs "androidboot.slot_suffix=_b androidboot.slot=a skip_initramfs")
        = Some cmd
        /\ slot_suffix cmd = cs "_a").
Proof.
  split.
  - eapply (last_slot_token_wins _ [cs "androidboot.slot=a"]
              (cs "androidboot.slot_suffix=_b") (cs "_b") [cs "skip_initramfs"]).
    + vm_compute. lia.
    + vm_compute. reflexivity.
    + apply (slot_token_suffix (cs "_b")).
      * discriminate.
      * simpl. lia.
      * apply (bool_decide_unpack (NUL ∉ cs "_b")). vm_compute. exact I.
      * repeat constructor.
    + repeat constructor.
    + vm_compute. reflexivity.
  - eapply (last_slot_token_wins _ [cs "androidboot.slot_suffix=_b"]
              (cs "androidboot.slot=a") (cs "_a") [cs "skip_initramfs"]).
    + vm_compute. lia.
    + vm_compute. reflexivity.
    + apply (slot_token_letter "a"%char []). discriminate.
    + repeat constructor.
    + vm_compute. reflexivity.
Defined.

(** ** Searching an image *)








(** ** The monad and the file system *)

Lemma bind_Ok {A B} (m : M A) (f : A -> M B) w a w' :
  m w = Ok a w' -> (m ≫= f) w = f a w'.
Proof. unfold mbind, M_bind. by intros ->. Qed.

Lemma bind_inv {A B} (m : M A) (f : A -> M B) w b w' :
  (m ≫= f) w = Ok b w' -> exists a w1, m w = Ok a w1 /\ f a w1 = Ok b w'.
Proof. unfold mbind, M_bind. destruct (m w) as [a w1|]; [eauto|done]. Qed.

Ltac munfold :=
  repeat progress
    (unfold mbind, M_bind, mret, M_ret, modify, get_world, lift, undefined in *;
     cbv beta iota in *).

Lemma set_fs_id w : set_fs (fs w) w = w.
Proof. by destruct w. Qed.





Section RamdiskPatch.
Context `{Headers}.

End RamdiskPatch.

(** ** Runs on concrete inputs *)

Section RamdiskPatchRun.
#[local] Existing Instance sample_headers.

End RamdiskPatchRun.


(** ** The socket name *)

Section SocketName.
Context `{Headers}.





End SocketName.

Section SocketNameRun.
#[local] Existing Instance sample_headers.

End SocketNameRun.

(** ** Block devices *)










Section BlockDevices.
Context `{Headers}.




Lemma dir_entries_Ok w p raw :
  listing (fs w) !! p = Some raw -> dir_entries p w = Ok (Some (real_entries raw)) w.
Proof. intros E. unfold dir_entries. by rewrite E. Qed.











End BlockDevices.

Section BlockDevicesRun.
#[local] Existing Instance sample_headers.


End BlockDevicesRun.

(** ** Policy resolution *)

Section Policy.
Context `{Headers}.

(** [commit_sepolicy] always returns 0; it records the rule injection
    and the dump, and leaves [policydb] alone. *)
Lemma commit_sepolicy_Ok w :
  exists w',
    commit_sepolicy w = Ok 0 w'
    /\ policydb w' = policydb w
    /\ trace w' = trace w ++ [c_sepol_magisk_rules; c_dump_policydb (cs "/sepolicy")].
Proof.
  unfold commit_sepolicy, extern, access, unlink, link, sys. munfold. cbn.
  repeat (case_decide || case_match); simplify_eq; cbn;
    (eexists; split; [reflexivity|]; cbn; split; [done|]);
    by rewrite <- app_assoc.
Qed.

Lemma load_then_commit w p :
  exists w',
    (load_policydb p ≫= λ _, commit_sepolicy) w = Ok 0 w'
    /\ policydb w' = pdb_file p
    /\ trace w' = trace w ++ [c_load_policydb p; c_sepol_magisk_rules;
                              c_dump_policydb (cs "/sepolicy")].
Proof.
  unfold load_policydb, extern. munfold.
  match goal with |- context [commit_sepolicy ?w1] =>
    destruct (commit_sepolicy_Ok w1) as (w' & E & P & T) end.
  exists w'. split; [exact E|]. split; [by rewrite P|].
  rewrite T. cbn. by rewrite <- app_assoc.
Qed.

Lemma strend_sha256 e :
  (7 ≤ length e)%nat ->
  exists r, strend e (cs ".sha256") = Some r
            /\ (r = 0 <-> drop (length e - 7) e = cs ".sha256").
Proof.
  intros Hl. unfold strend. change (length (cs ".sha256")) with 7%nat.
  rewrite decide_True by done. eexists. split; [reflexivity|].
  rewrite strcmp_0_iff. change (c_str (cs ".sha256")) with (cs ".sha256").
  split; [|by intros ->].
  intros E. rewrite <- E. symmetry. apply c_str_full.
  rewrite E, length_drop. simpl. lia.
Qed.

Lemma read_line_Ok w p n text c :
  fs_data (fs w) p = Some (text ++ [c]) -> nul_free text -> (length text < n)%nat ->
  read_line p n w = Ok text w.
Proof.
  intros E Hn Hl. unfold read_line, read_file. munfold. rewrite E. simpl.
  rewrite firstn_all2 by (rewrite length_app; simpl; lia).
  rewrite decide_False by by destruct text.
  by rewrite removelast_last, c_str_nul_free.
Qed.

Lemma read_sha_signature w dir before e after text c :
  Forall (λ n, (7 ≤ length n)%nat /\ drop (length n - 7) n ≠ cs ".sha256") before ->
  (7 ≤ length e)%nat -> drop (length e - 7) e = cs ".sha256" ->
  fs_data (fs w) (dir_entry dir e) = Some (text ++ [c]) ->
  nul_free text -> (length text < 70)%nat ->
  read_sha dir (before ++ e :: after) w = Ok (Some text) w.
Proof.
  intros Hb He Hs Ed Hn Hl.
  induction Hb as [|x before [Hx Hne] _ IH]; cbn [app read_sha].
  - destruct (strend_sha256 e He) as (r & -> & Hr). munfold.
    rewrite decide_True by by apply Hr.
    by rewrite (read_line_Ok _ _ _ _ _ Ed Hn Hl).
  - destruct (strend_sha256 x Hx) as (r & -> & Hr). munfold.
    rewrite decide_False; [exact IH|]. by rewrite Hr.
Qed.

(** With a signature in each directory, [verify_precompiled] compares
    the two texts. *)
Lemma verify_precompiled_signatures w sp sv :
  signature_file (fs w) PLAT_POLICY_DIR sp ->
  signature_file (fs w) NONPLAT_POLICY_DIR sv ->
  verify_precompiled w = Ok (bool_decide (sp = sv)) w.
Proof.
  intros (raw1 & b1 & e1 & a1 & c1 & L1 & R1 & F1 & H1 & S1 & D1 & N1 & Z1)
         (raw2 & b2 & e2 & a2 & c2 & L2 & R2 & F2 & H2 & S2 & D2 & N2 & Z2).
  unfold verify_precompiled, lift.
  rewrite (bind_Ok _ _ _ _ _ (dir_entries_Ok _ _ _ L2)).
  rewrite (bind_Ok (mret (real_entries raw2)) _ w _ w eq_refl), R2.
  rewrite (bind_Ok _ _ _ _ _ (read_sha_signature _ _ _ _ _ _ _ F2 H2 S2 D2 N2 Z2)).
  rewrite (bind_Ok _ _ _ _ _ (dir_entries_Ok _ _ _ L1)).
  rewrite (bind_Ok (mret (real_entries raw1)) _ w _ w eq_refl), R1.
  rewrite (bind_Ok _ _ _ _ _ (read_sha_signature _ _ _ _ _ _ _ F1 H1 S1 D1 N1 Z1)).
  simpl. unfold mret, M_ret. f_equal. apply bool_decide_ext. by apply strcmp_eq.
Qed.

(** [verify_precompiled] only reads. *)
Lemma read_line_frame w p n s w' : read_line p n w = Ok s w' -> w' = w.
Proof.
  unfold read_line, read_file. munfold.
  destruct (take n <$> _) as [d|]; [|done].
  destruct (decide _); [done|]. by intros [= _ ->].
Qed.

Lemma read_sha_frame w dir entries r w' :
  read_sha dir entries w = Ok r w' -> w' = w.
Proof.
  induction entries as [|e entries IH]; simpl.
  - by intros [= _ ->].
  - munfold. destruct (strend e _); [|done]. destruct (decide _); [|exact IH].
    destruct (read_line _ _ w) as [s w1|] eqn:E; [|done].
    apply read_line_frame in E as ->. by intros [= _ ->].
Qed.

Lemma verify_precompiled_frame w b w' :
  verify_precompiled w = Ok b w' -> w' = w.
Proof.
  unfold verify_precompiled, dir_entries. munfold.
  destruct (_ <$> listing (fs w) !! NONPLAT_POLICY_DIR) as [es|]; [|done].
  destruct (read_sha _ es w) as [ven w1|] eqn:E1; [|done].
  apply read_sha_frame in E1 as ->.
  destruct (_ <$> listing (fs w) !! PLAT_POLICY_DIR) as [es'|]; [|done].
  destruct (read_sha _ es' w) as [sys w1|] eqn:E2; [|done].
  apply read_sha_frame in E2 as ->.
  destruct ven; [by intros [= _ ->]|].
  destruct (default [] sys) as [|c l]; [by intros [= _ ->]|].
  destruct (decide _); [done|]. by intros [= _ ->].
Qed.

(** The calls of a run of [compile_cil] are calls to the CIL compiler
    only, [cil_compile] among them. *)
Lemma extern_cil_trace op w u w1 :
  extern (c_cil op) w = Ok u w1 ->
  trace w1 = trace w ++ map c_cil [op] /\ policydb w1 = policydb w.
Proof. unfold extern. munfold. by intros [= _ <-]. Qed.

Lemma cil_add_trace p w u w1 :
  cil_add p w = Ok u w1 ->
  exists d, trace w1 = trace w ++ map c_cil [cil_add_file p d].
Proof.
  unfold cil_add, mmap, extern. munfold.
  destruct (names (fs w) !! p) as [i|]; [|done].
  destruct (inodes (fs w) !! i) as [[]|]; try done.
  intros [= _ <-]. by eexists.
Qed.

Lemma cil_add_dir_trace entries w u w1 :
  cil_add_dir entries w = Ok u w1 ->
  exists ops, trace w1 = trace w ++ map c_cil ops.
Proof.
  revert w. induction entries as [|e entries IH]; intros w; simpl.
  - intros [= _ <-]. exists []. by rewrite app_nil_r.
  - intros E. apply bind_inv in E as (r & w2 & E1 & E).
    unfold lift in E1. destruct (strend e _); munfold; [|done].
    injection E1 as -> ->.
    apply bind_inv in E as (? & w3 & E2 & E).
    apply IH in E as (ops & ->).
    destruct (decide (r = 0)).
    + apply cil_add_trace in E2 as (d & ->). eexists (_ :: ops).
      by rewrite <- app_assoc.
    + injection E2 as _ <-. by exists ops.
Qed.

Lemma compile_cil_inv w r w' :
  compile_cil w = Ok r w' ->
  r = 0 /\ policydb w' = pdb_cil
  /\ exists ops, trace w' = trace w ++ map c_cil ops /\ cil_compile ∈ ops.
Proof.
  unfold compile_cil. intros E.
  repeat match type of E with
  | (extern (c_cil _) ≫= _) _ = Ok _ _ =>
      let T := fresh "T" in
      apply bind_inv in E as (? & ? & [T _]%extern_cil_trace & E)
  end.
  apply bind_inv in E as (? & ? & [d1 T7]%cil_add_trace & E).
  apply bind_inv in E as (plat & ? & ->%read_line_frame & E).
  apply bind_inv in E as (? & ? & [d2 T8]%cil_add_trace & E).
  apply bind_inv in E as (? & ? & E0 & E).
  unfold dir_entries in E0. injection E0 as _ <-.
  apply bind_inv in E as (? & ? & E0 & E).
  unfold lift in E0. case_match; munfold; [|done]. injection E0 as _ <-.
  apply bind_inv in E as (? & ? & [ops T9]%cil_add_dir_trace & E).
  repeat match type of E with
  | (extern (c_cil _) ≫= _) _ = Ok _ _ =>
      let T := fresh "T" in
      apply bind_inv in E as (? & ? & [T _]%extern_cil_trace & E)
  end.
  munfold. injection E as <- <-. split; [done|]. split; [done|].
  cbn [trace set_policydb].
  repeat match goal with T : trace _ = _ |- _ => rewrite T; clear T end.
  cbn [trace set_trace set_fs].
  exists ([cil_db_init; cil_set_mls 1; cil_set_multiple_decls 1;
           cil_set_disable_neverallow 1; cil_set_target_platform_selinux;
           cil_set_policy_version_xperms_ioctl; cil_set_attrs_expand_generated 0;
           cil_add_file SPLIT_PLAT_CIL d1;
           cil_add_file (snprintf 128 (SPLIT_PLAT_MAPPING plat)) d2]
            ++ ops ++ [cil_compile; cil_build_policydb; cil_db_destroy]).
  split.
  - rewrite !map_app. cbn [map]. rewrite <- !app_assoc. reflexivity.
  - rewrite !elem_of_app. right. right. left.
Qed.

Lemma access_Ok p w : access p w = Ok (fs_access (fs w) p) w.
Proof. reflexivity. Qed.

(** [patch_sepolicy] once [/sepolicy] is not readable and the
    precompiled policy is not taken. *)
Lemma patch_sepolicy_fallthrough w :
  ~ readable w (cs "/sepolicy") ->
  (~ readable w SPLIT_PRECOMPILE \/ verify_precompiled w = Ok false w) ->
  patch_sepolicy w
  = (if decide (fs_access (fs w) SPLIT_PLAT_CIL = 0)
     then compile_cil ≫= λ _, commit_sepolicy
     else mret 1) w.
Proof.
  unfold readable. intros H1 H2. unfold patch_sepolicy.
  rewrite (bind_Ok _ _ _ _ _ (access_Ok _ w)), decide_False by done.
  rewrite (bind_Ok _ _ _ _ _ (access_Ok _ w)).
  assert (Ev : (if decide (fs_access (fs w) SPLIT_PRECOMPILE = 0)
                then verify_precompiled else mret false) w = Ok false w).
  { destruct H2 as [H2|H2]; [by rewrite decide_False|].
    by destruct (decide _). }
  rewrite (bind_Ok _ _ _ _ _ Ev).
  by rewrite (bind_Ok _ _ _ _ _ (access_Ok _ w)).
Qed.

(** C1.  [patch_sepolicy] takes the first source that applies, in the
    order [/sepolicy], precompiled policy, CIL:
    - a readable [/sepolicy] is loaded, and nothing else is consulted;
    - otherwise a readable precompiled policy whose check
      [verify_precompiled] passes is loaded, and no call to the CIL
      compiler is made;
    - otherwise, with a readable platform CIL file, the function is the
      CIL compilation followed by the commit, and a run that returns has
      called the compiler and no loader;
    - otherwise it returns 1 and leaves the state as it was;
    and with a signature file in each of the two policy directories
    the check passes exactly when the two texts are equal; the check
    itself changes nothing. *)
Theorem patch_sepolicy_order w :
  (readable w (cs "/sepolicy") ->
   exists w',
     patch_sepolicy w = Ok 0 w'
     /\ policydb w' = pdb_file (cs "/sepolicy")
     /\ trace w' = trace w ++ [c_load_policydb (cs "/sepolicy");
                               c_sepol_magisk_rules;
                               c_dump_policydb (cs "/sepolicy")])
  /\ (~ readable w (cs "/sepolicy") -> readable w SPLIT_PRECOMPILE ->
      verify_precompiled w = Ok true w ->
      exists w',
        patch_sepolicy w = Ok 0 w'
        /\ policydb w' = pdb_file SPLIT_PRECOMPILE
        /\ trace w' = trace w ++ [c_load_policydb SPLIT_PRECOMPILE;
                                  c_sepol_magisk_rules;
                                  c_dump_policydb (cs "/sepolicy")])
  /\ (~ readable w (cs "/sepolicy") ->
      (~ readable w SPLIT_PRECOMPILE \/ verify_precompiled w = Ok false w) ->
      readable w SPLIT_PLAT_CIL ->
      patch_sepolicy w = (compile_cil ≫= λ _, commit_sepolicy) w
      /\ forall r w',
           patch_sepolicy w = Ok r w' ->
           r = 0 /\ policydb w' = pdb_cil
           /\ exists ops,
                trace w' = trace w ++ map c_cil ops
                             ++ [c_sepol_magisk_rules;
                                 c_dump_policydb (cs "/sepolicy")]
                /\ cil_compile ∈ ops)
  /\ (~ readable w (cs "/sepolicy") ->
      (~ readable w SPLIT_PRECOMPILE \/ verify_precompiled w = Ok false w) ->
      ~ readable w SPLIT_PLAT_CIL ->
      patch_sepolicy w = Ok 1 w)
  /\ (forall sp sv,
        signature_file (fs w) PLAT_POLICY_DIR sp ->
        signature_file (fs w) NONPLAT_POLICY_DIR sv ->
        verify_precompiled w = Ok (bool_decide (sp = sv)) w)
  /\ (forall b w', verify_precompiled w = Ok b w' -> w' = w).
Proof.
  split; [|split; [|split; [|split; [|split]]]].
  - unfold readable. intros Hr. unfold patch_sepolicy.
    rewrite (bind_Ok _ _ _ _ _ (access_Ok _ w)), decide_True by done.
    apply load_then_commit.
  - unfold readable. intros H1 H2 Hv. unfold patch_sepolicy.
    rewrite (bind_Ok _ _ _ _ _ (access_Ok _ w)), decide_False by done.
    rewrite (bind_Ok _ _ _ _ _ (access_Ok _ w)), decide_True by done.
    rewrite (bind_Ok _ _ _ _ _ Hv). apply load_then_commit.
  - intros H1 H2 H3. rewrite (patch_sepolicy_fallthrough w H1 H2).
    rewrite decide_True by exact H3. split; [done|].
    intros r w' E. apply bind_inv in E as (r0 & w1 & Ec & E).
    apply compile_cil_inv in Ec as (_ & Pc & ops & Tc & Hin).
    destruct (commit_sepolicy_Ok w1) as (w2 & E2 & P2 & T2).
    rewrite E2 in E. injection E as <- <-.
    split; [done|]. split; [by rewrite P2|].
    exists ops. split; [|done]. by rewrite T2, Tc, <- app_assoc.
  - intros H1 H2 H3. rewrite (patch_sepolicy_fallthrough w H1 H2).
    by rewrite decide_False by exact H3.
  - apply verify_precompiled_signatures.
  - apply verify_precompiled_frame.
Qed.
End Policy.

Section PolicyRun.
#[local] Existing Instance sample_headers.

Ltac sample_signatures :=
  split;
  [ exists [cs "."; cs ".."; cs "mapping"; cs "plat_sepolicy.cil";
            cs "plat_and_mapping_sepolicy.cil.sha256"],
           [cs "mapping"; cs "plat_sepolicy.cil"],
           (cs "plat_and_mapping_sepolicy.cil.sha256"), [], newline
  | exists [cs "."; cs ".."; cs "nonplat_sepolicy.cil"; cs "plat_sepolicy_vers.txt";
            cs "precompiled_sepolicy";
            cs "precompiled_sepolicy.plat_and_mapping.sha256"],
           [cs "nonplat_sepolicy.cil"; cs "plat_sepolicy_vers.txt";
            cs "precompiled_sepolicy"],
           (cs "precompiled_sepolicy.plat_and_mapping.sha256"), [], newline ];
  (split; [reflexivity|]; split; [reflexivity|];
   split; [repeat constructor; (vm_compute; lia) || (vm_compute; discriminate)|];
   split; [vm_compute; lia|]; split; [reflexivity|];
   split; [vm_compute; reflexivity|]; split; [literal_nul_free|vm_compute; lia]).

Lemma same_digest_signatures :
  signature_file (fs world_same_digest) PLAT_POLICY_DIR (cs "0a1b2c")
  /\ signature_file (fs world_same_digest) NONPLAT_POLICY_DIR (cs "0a1b2c").
Proof. sample_signatures. Qed.

Lemma other_digest_signatures :
  signature_file (fs world_other_digest) PLAT_POLICY_DIR (cs "0a1b2c")
  /\ signature_file (fs world_other_digest) NONPLAT_POLICY_DIR (cs "0a1b2d").
Proof. sample_signatures. Qed.

Lemma patch_sepolicy_order_witness :
  (exists w',
     patch_sepolicy world_same_digest = Ok 0 w'
     /\ policydb w' = pdb_file SPLIT_PRECOMPILE
     /\ trace w' = trace world_same_digest
                     ++ [c_load_policydb SPLIT_PRECOMPILE; c_sepol_magisk_rules;
                         c_dump_policydb (cs "/sepolicy")])
  /\ (exists w' ops,
        patch_sepolicy world_other_digest = Ok 0 w'
        /\ policydb w' = pdb_cil
        /\ trace w' = trace world_other_digest ++ map c_cil ops
                        ++ [c_sepol_magisk_rules; c_dump_policydb (cs "/sepolicy")]
        /\ cil_compile ∈ ops).
Proof.
  split.
  - apply (proj1 (proj2 (patch_sepolicy_order world_same_digest))).
    + vm_compute. discriminate.
    + vm_compute. reflexivity.
    + destruct same_digest_signatures as [S1 S2].
      exact (proj1 (proj2 (proj2 (proj2 (proj2
               (patch_sepolicy_order world_same_digest))))) _ _ S1 S2).
  - assert (Hv : verify_precompiled world_other_digest = Ok false world_other_digest).
    { destruct other_digest_signatures as [S1 S2].
      exact (proj1 (proj2 (proj2 (proj2 (proj2
               (patch_sepolicy_order world_other_digest))))) _ _ S1 S2). }
    assert (Hok : match patch_sepolicy world_other_digest with
                  | Ok r _ => r = 0
                  | Undefined => False
                  end) by (vm_compute; reflexivity).
    destruct (proj1 (proj2 (proj2 (patch_sepolicy_order world_other_digest))))
      as [Eq Hret].
    + vm_compute. discriminate.
    + right. exact Hv.
    + vm_compute. reflexivity.
    + destruct (patch_sepolicy world_other_digest) as [r w'|]; [|destruct Hok].
      destruct (Hret r w' eq_refl) as (_ & P & ops & T & Hin).
      exists w', ops. rewrite <- Hok at 1. exact (conj eq_refl (conj P (conj T Hin))).
Defined.
End PolicyRun.

(** ** Payload extraction *)

Section Payload.
Context `{Headers}.

Lemma fs_write_write f i m d a b :
  inodes f !! i = Some (Reg m d) ->
  fs_write (fs_write f i a) i b = fs_write f i (a ++ b).
Proof.
  intros E. unfold fs_write. rewrite E. simpl. rewrite lookup_insert_eq.
  by rewrite insert_insert_eq, app_assoc.
Qed.

Lemma fs_write_nil f i m d :
  inodes f !! i = Some (Reg m d) -> fs_write f i [] = f.
Proof.
  intros E. unfold fs_write. rewrite E, app_nil_r. destruct f; simpl in *.
  by rewrite insert_id.
Qed.

Lemma fs_write_lookup f i m d a :
  inodes f !! i = Some (Reg m d) ->
  inodes (fs_write f i a) !! i = Some (Reg m (d ++ a)).
Proof. intros E. unfold fs_write. rewrite E. simpl. apply lookup_insert_eq. Qed.

(** The loop of [unxz] on an open regular file. *)
Lemma unxz_loop_spec steps w i m d :
  inodes (fs w) !! i = Some (Reg m d) ->
  unxz_loop steps (Some i) w
  = Ok (snd (lzma_run steps)) (set_fs (fs_write (fs w) i (fst (lzma_run steps))) w).
Proof.
  revert w d. induction steps as [|[out r] steps IH]; intros w d E; simpl.
  - unfold write. munfold. by rewrite (fs_write_nil _ _ _ _ E).
  - unfold write. munfold. destruct (decide _) as [Hc|Hc]; simpl; [|done].
    rewrite (IH _ (d ++ out)); [|by apply fs_write_lookup].
    cbn [fs set_fs]. by rewrite (fs_write_write _ _ _ _ _ _ E).
Qed.

Lemma unxz_spec buf w i m d :
  inodes (fs w) !! i = Some (Reg m d) ->
  exists r,
    unxz buf (Some i) w
    = Ok r (set_fs (fs_write (fs w) i (unxz_output (env w) buf)) w)
    /\ (r = 0 \/ r = 1) /\ (r = 1 <-> unxz_fails (env w) buf).
Proof.
  intros E. unfold unxz, unxz_output, unxz_fails. munfold.
  destruct (decide (lzma_init (env w) ≠ LZMA_OK)) as [Hi|Hi].
  - exists 1. rewrite (fs_write_nil _ _ _ _ E), set_fs_id. by intuition.
  - rewrite (unxz_loop_spec _ _ _ _ _ E).
    destruct (decide _) as [Hr|Hr].
    + exists 1. by intuition.
    + exists 0. split; [done|]. split; [by left|]. split; [done|].
      intros [?|?]; done.
Qed.

(** C9.  [dump_magisk] on a pathname that is not a directory: whatever
    the decoder does, the name is taken from the file it had and given
    to a new file of the requested mode (cleared by the umask), which
    receives what the decoder produced before it stopped; the value
    returned is 1 exactly when decompression fails.  So a failure leaves
    the earlier file removed and a new, possibly partial, file in its
    place. *)
Theorem dump_magisk_not_atomic w p mode :
  is_dir (fs w) p = false ->
  exists r w',
    dump_magisk p mode w = Ok r w'
    /\ (new_inode (fs w) ∉ dom (inodes (fs w)))
    /\ names (fs w') = (<[p := new_inode (fs w)]> (names (fs w)))
    /\ inodes (fs w')
       = (<[new_inode (fs w)
            := Reg (Z.land mode (Z.lnot (umask_bits w)))
                 (unxz_output (env w) magisk_dump)]> (inodes (fs w)))
    /\ (r = 0 \/ r = 1)
    /\ (r = 1 <-> unxz_fails (env w) magisk_dump).
Proof.
  intros Hd. unfold dump_magisk.
  set (i := new_inode (fs w)).
  assert (Hi : i ∉ dom (inodes (fs w))) by apply (is_fresh (dom (inodes (fs w)))).
  assert (Hn : inodes (fs w) !! i = None) by by apply not_elem_of_dom.
  (* the state after [unlink]: the name is free, the inodes are as before *)
  assert (exists r0 w0, unlink p w = Ok r0 w0
            /\ names (fs w0) = delete p (names (fs w))
            /\ inodes (fs w0) = inodes (fs w)
            /\ umask_bits w0 = umask_bits w /\ env w0 = env w)
    as (r0 & w0 & E0 & N0 & I0 & U0 & V0).
  { unfold unlink, sys, fs_unlink. rewrite Hd.
    destruct (names (fs w) !! p) eqn:En; eexists _, _; (split; [reflexivity|]).
    - done.
    - by rewrite delete_id. }
  rewrite (bind_Ok _ _ _ _ _ E0).
  assert (Ei : new_inode (fs w0) = i) by (unfold new_inode, i; by rewrite I0).
  set (md := Z.land mode (Z.lnot (umask_bits w))).
  assert (Ec : creat p mode w0
               = Ok (Some i) (set_fs (alloc (fs w0) p (Reg md [])) w0)).
  { unfold creat, fs_creat. by rewrite N0, lookup_delete_eq, U0, Ei. }
  rewrite (bind_Ok _ _ _ _ _ Ec).
  destruct (unxz_spec magisk_dump (set_fs (alloc (fs w0) p (Reg md [])) w0)
              i md []) as (r & Eu & Hr & Hf).
  { cbn. rewrite Ei. apply lookup_insert_eq. }
  rewrite (bind_Ok _ _ _ _ _ Eu).
  eexists r, _. split; [reflexivity|]. split; [exact Hi|].
  cbn in Hf. rewrite V0 in *. split; [|split; [|by split]].
  - cbn. unfold fs_write. cbn. rewrite Ei, lookup_insert_eq. cbn.
    by rewrite N0, insert_delete_eq.
  - cbn. unfold fs_write. cbn. rewrite Ei, lookup_insert_eq. cbn.
    by rewrite I0, V0, insert_insert_eq.
Qed.
End Payload.

Section PayloadRun.
#[local] Existing Instance sample_headers.

Lemma dump_magisk_not_atomic_witness :
  exists w',
    dump_magisk (cs "/sbin/magisk") o0755 world_with_old_magisk = Ok 1 w'
    /\ fs_data (fs world_with_old_magisk) (cs "/sbin/magisk")
       = Some (cs "ELF:old magisk")
    /\ names (fs world_with_old_magisk) !! cs "/sbin/magisk" = Some 0%nat
    /\ names (fs w') !! cs "/sbin/magisk" = Some 1%nat
    /\ inodes (fs w') !! 1%nat = Some (Reg o0755 (cs "ELF:mag")).
Proof.
  destruct (dump_magisk_not_atomic world_with_old_magisk (cs "/sbin/magisk") o0755)
    as (r & w' & E & Hi & Hn & Hino & Hr & Hf).
  { vm_compute. reflexivity. }
  assert (r = 1) as ->.
  { apply Hf. right. vm_compute. split; discriminate. }
  exists w'. split; [exact E|]. split; [vm_compute; reflexivity|].
  split; [vm_compute; reflexivity|]. rewrite Hn, Hino.
  split; [apply lookup_insert_eq|].
  change (new_inode (fs world_with_old_magisk)) with 1%nat.
  rewrite lookup_insert_eq. reflexivity.
Defined.
End PayloadRun.

(** ** The boot sequence *)

Section Boot.
Context `{Headers}.









End Boot.

Section BootRun.
#[local] Existing Instance sample_headers.


End BootRun.

(** ** Policy failure and the rest of the boot *)

Section Handover.
Context `{Headers}.













End Handover.

Section HandoverRun.
#[local] Existing Instance sample_headers.

End HandoverRun.
